(** * The OpenAI-parameters notebook: request building and response handling

    A shallow embedding of the code cells of
    [quick_start/v1/05_OpenAI_parameters.ipynb].  The cells build keyword
    arguments for [client.chat.completions.create], call the remote chat
    completion endpoint and print (or return) the content of the choices that
    come back.

    The remote endpoint is not part of the notebook.  It is a parameter of
    the development: a function from the keyword arguments and the state of
    the remote side to an outcome and a new remote state.  No theorem
    assumes anything of it; where a property holds of some endpoints only,
    a small endpoint of the [Demo] module shows the difference. *)

From Stdlib Require Import ZArith QArith Lia.
From stdpp Require Import base option list strings gmap fin_maps.

Local Close Scope Q_scope.
Local Open Scope Z_scope.
Local Open Scope string_scope.
Local Open Scope list_scope.

(** ** Values that travel in a request *)

(** Python numbers.  The notebook passes ints ([max_tokens=60], [n=2],
    [temperature = 0]) and floats ([0.75], [0.5], [1.5]); it never computes
    with them, so a float is carried as the rational it denotes. *)
Inductive number : Type :=
| Int (z : Z)
| Float (q : Q).

Definition number_to_Q (x : number) : Q :=
  match x with
  | Int z => inject_Z z
  | Float q => q
  end.

(** Keyword-argument values: [None] (an unset environment variable), a
    number, a string, or the [messages] list of role/content dicts. *)
Inductive value : Type :=
| VNone
| VNum (x : number)
| VStr (s : string)
| VMessages (ms : list (gmap string string)).

(** ** What comes back

    The attribute path the cells read is [response.choices[i].message.content]. *)
Record ChatCompletionMessage : Type := { content : string }.
Record Choice : Type := { message : ChatCompletionMessage }.
Record ChatCompletion : Type := { choices : list Choice }.

(** The two ways the remote call can fail, as the error design of the
    specification names them; the second carries the offending field. *)
Inductive service_error : Type :=
| RemoteServiceError
| InvalidParameterError (field : string).

(** What cell code can raise: a failure of the remote call, or Python's own
    [IndexError] from [response.choices[0]] on an empty list. *)
Inductive exn : Type :=
| ServiceError (e : service_error)
| IndexError.

(** The log has two entries per call of [create]: the keyword arguments the
    notebook hands over, and what the call finally returns or raises.  What
    the client does inside one call (it may send the request again) is not
    code of the notebook and is not recorded. *)
Inductive event : Type :=
| Issued (kw : gmap string value)
| Completed (outcome : service_error + ChatCompletion).

(** Arguments of a [print] call, before they are rendered to text.  An
    f-string is kept as its fragments. *)
Inductive printable : Type :=
| PStr (s : string)
| PInt (i : Z)
| PFString (parts : list (string + number)).

(** [SEED = 123] *)
Definition SEED : Z := 123.

Definition system_message : gmap string string :=
  {[ "role" := "system"; "content" := "You are a helpful assistant." ]}.

Definition user_message (prompt : string) : gmap string string :=
  {[ "role" := "user"; "content" := prompt ]}.

(** [range(n)] and [enumerate(l)] *)
Definition range (n : Z) : list Z := Z.of_nat <$> seq 0 (Z.to_nat n).

Definition enumerate {A : Type} (l : list A) : list (Z * A) :=
  imap (fun i x => (Z.of_nat i, x)) l.

(** The line feed of the cells' string literals. *)
Definition newline : string := String (Ascii.ascii_of_nat 10) "".

(** Repetition of a string, as in the rulers the cells print. *)
Fixpoint str_mul (s : string) (n : nat) : string :=
  match n with
  | O => ""
  | S n' => s +:+ str_mul s n'
  end.

Definition getenv_value (v : option string) : value :=
  match v with
  | Some s => VStr s
  | None => VNone
  end.

Section Notebook.

(** The remote side: its state, and the endpoint as a transition on it. *)
Variable world : Type.
Variable remote :
  gmap string value -> world -> (service_error + ChatCompletion) * world.

(** [CHAT_COMPLETIONS_MODEL = os.getenv('AZURE_OPENAI_DEPLOYMENT_NAME')] *)
Variable CHAT_COMPLETIONS_MODEL : option string.

(** ** Interpreter state and the monad of cell code *)

Record state : Type := mkState {
  remote_state : world;
  log : list event;
  stdout : list (list printable)
}.

(** A computation either returns or raises; the state it leaves behind is
    kept in both cases (what was printed before an exception stays
    printed). *)
Definition M (A : Type) : Type := state -> (exn + A) * state.

Definition ret {A : Type} (a : A) : M A := fun s => (inr a, s).

Definition raise {A : Type} (e : exn) : M A := fun s => (inl e, s).

Definition bind {A B : Type} (c : M A) (k : A -> M B) : M B :=
  fun s =>
    match c s with
    | (inr a, s') => k a s'
    | (inl e, s') => (inl e, s')
    end.

Notation "x <- c ;; k" := (bind c (fun x => k))
  (at level 100, c at next level, right associativity).
Notation "c ;;; k" := (bind c (fun _ => k))
  (at level 100, right associativity).

(** [client.chat.completions.create] with keyword arguments [kw], as the
    cells see it: the call blocks, then returns a response or raises. *)
Definition create (kw : gmap string value) : M ChatCompletion :=
  fun s =>
    let '(outcome, w') := remote kw (remote_state s) in
    (match outcome with
     | inl e => inl (ServiceError e)
     | inr response => inr response
     end,
     mkState w' (log s ++ [Issued kw; Completed outcome]) (stdout s)).

Definition print (args : list printable) : M unit :=
  fun s => (inr tt, mkState (remote_state s) (log s) (stdout s ++ [args])).

(** [l[i]] for a non-negative literal [i]. *)
Definition getitem {A : Type} (l : list A) (i : nat) : M A :=
  match l !! i with
  | Some x => ret x
  | None => raise IndexError
  end.

(** [for x in xs: body] *)
Fixpoint for_each {A : Type} (xs : list A) (body : A -> M unit) : M unit :=
  match xs with
  | [] => ret tt
  | x :: xs' => body x ;;; for_each xs' body
  end.

(** ** The cells *)

Definition kwargs_max_tokens (max_tokens : number) : gmap string value :=
  {[ "model" := getenv_value CHAT_COMPLETIONS_MODEL;
     "messages" := VMessages [system_message; user_message "The best pet is a"];
     "max_tokens" := VNum max_tokens ]}.

Definition call_openai_with_max_tokens (max_tokens : number) : M string :=
  response <- create (kwargs_max_tokens max_tokens) ;;
  c <- getitem (choices response) 0 ;;
  ret (content (message c)).

Definition cell_4 : M unit :=
  let penalties := [Int 16; Int 32; Int 60; Int 100] in
  for_each penalties (fun penalty =>
    print [PFString [inl "Max Tokens: "; inr penalty; inl (newline)]] ;;;
    text <- call_openai_with_max_tokens penalty ;;
    print [PStr text] ;;;
    print [PStr (newline +:+ str_mul "-" 80 +:+ newline)]).

Definition kwargs_with_seed (prompt : string) (temperature : number)
    : gmap string value :=
  {[ "model" := getenv_value CHAT_COMPLETIONS_MODEL;
     "messages" := VMessages [system_message; user_message prompt];
     "max_tokens" := VNum (Int 60);
     "seed" := VNum (Int SEED);
     "temperature" := VNum temperature ]}.

Definition kwargs_without_seed (prompt : string) (temperature : number)
    : gmap string value :=
  {[ "model" := getenv_value CHAT_COMPLETIONS_MODEL;
     "messages" := VMessages [system_message; user_message prompt];
     "max_tokens" := VNum (Int 60);
     "temperature" := VNum temperature ]}.

Definition call_openai (num_times : Z) (prompt : string)
    (temperature : number) (use_seed : bool) : M unit :=
  for_each (range num_times) (fun i =>
    response <- (if use_seed
                 then create (kwargs_with_seed prompt temperature)
                 else create (kwargs_without_seed prompt temperature)) ;;
    c <- getitem (choices response) 0 ;;
    print [PStr (content (message c))]).

(** The keyword arguments of the branch [call_openai] takes. *)
Definition kwargs_call_openai (prompt : string) (temperature : number)
    (use_seed : bool) : gmap string value :=
  if use_seed then kwargs_with_seed prompt temperature
  else kwargs_without_seed prompt temperature.

(** The default [temperature=0.75]. *)
Definition default_temperature : number := Float (3 # 4).

Definition cell_7 : M unit :=
  call_openai 10 "The best pet is a " default_temperature false.

Definition cell_8 : M unit :=
  call_openai 10 "The best pet is a " (Int 0) true.

(** The [n] cell, with its literal [2] as a parameter. *)
Definition kwargs_n (n : Z) : gmap string value :=
  {[ "model" := getenv_value CHAT_COMPLETIONS_MODEL;
     "messages" := VMessages [system_message; user_message "The best pet is a "];
     "max_tokens" := VNum (Int 60);
     "n" := VNum (Int n) ]}.

Definition print_choices (response : ChatCompletion) : M unit :=
  for_each (enumerate (choices response)) (fun '(index, c) =>
    print [PInt index; PStr (content (message c))]).

Definition n_cell (n : Z) : M unit :=
  response <- create (kwargs_n n) ;;
  print_choices response.

Definition cell_10 : M unit := n_cell 2.

Definition kwargs_presence_penalty (presence_penalty : number)
    : gmap string value :=
  {[ "model" := getenv_value CHAT_COMPLETIONS_MODEL;
     "messages" := VMessages [system_message; user_message "The best pet is a"];
     "max_tokens" := VNum (Int 60);
     "presence_penalty" := VNum presence_penalty ]}.

Definition call_openai_with_presence_penalty (presence_penalty : number)
    : M string :=
  response <- create (kwargs_presence_penalty presence_penalty) ;;
  c <- getitem (choices response) 0 ;;
  ret (content (message c)).

Definition cell_13 : M unit :=
  let penalties := [Int 0; Float (1 # 2); Float 1; Float (3 # 2); Float 2] in
  for_each penalties (fun penalty =>
    print [PFString [inl "Presence Penalty: "; inr penalty; inl (newline)]] ;;;
    text <- call_openai_with_presence_penalty penalty ;;
    print [PStr text] ;;;
    print [PStr (newline +:+ str_mul "-" 80 +:+ newline)]).

(** ** Observations on a run *)

(** The log a run of whole interactions leaves. *)
Definition interactions
    (calls : list (gmap string value * (service_error + ChatCompletion)))
    : list event :=
  flat_map (fun '(kw, outcome) => [Issued kw; Completed outcome]) calls.

(** Requests issued and not yet answered, after a log. *)
Fixpoint outstanding (tr : list event) : Z :=
  match tr with
  | [] => 0
  | Issued _ :: tr' => outstanding tr' + 1
  | Completed _ :: tr' => outstanding tr' - 1
  end.

(** [c] extends the log by whole interactions, each with a request that
    satisfies [P]: at least [lo] and at most [hi] of them from whatever state
    it starts and however it ends, and exactly [hi] when it returns. *)
Definition emits {A : Type} (P : gmap string value -> Prop) (lo hi : nat)
    (c : M A) : Prop :=
  forall s, exists calls,
    log (c s).2 = log s ++ interactions calls
    /\ Forall (fun call => P call.1) calls
    /\ (lo <= length calls <= hi)%nat
    /\ (forall a, (c s).1 = inr a -> length calls = hi).


(** ** The code the notebook can run

    Its three functions at any arguments, the [n] cell at any [n], and the
    five code cells as they stand. *)
Inductive operation : Type :=
| CallMaxTokens (max_tokens : number)
| CallOpenai (num_times : Z) (prompt : string) (temperature : number)
    (use_seed : bool)
| CallPresencePenalty (presence_penalty : number)
| NCell (n : Z)
| Cell4
| Cell7
| Cell8
| Cell10
| Cell13.

Definition run (op : operation) : M unit :=
  match op with
  | CallMaxTokens max_tokens =>
      _ <- call_openai_with_max_tokens max_tokens ;; ret tt
  | CallOpenai num_times prompt temperature use_seed =>
      call_openai num_times prompt temperature use_seed
  | CallPresencePenalty presence_penalty =>
      _ <- call_openai_with_presence_penalty presence_penalty ;; ret tt
  | NCell n => n_cell n
  | Cell4 => cell_4
  | Cell7 => cell_7
  | Cell8 => cell_8
  | Cell10 => cell_10
  | Cell13 => cell_13
  end.

(** The keyword arguments an operation can hand to [create]. *)
Definition builds (op : operation) (kw : gmap string value) : Prop :=
  match op with
  | CallMaxTokens max_tokens => kw = kwargs_max_tokens max_tokens
  | Cell4 => exists max_tokens, kw = kwargs_max_tokens max_tokens
  | CallOpenai _ prompt temperature use_seed =>
      kw = kwargs_call_openai prompt temperature use_seed
  | Cell7 => kw = kwargs_call_openai "The best pet is a " default_temperature false
  | Cell8 => kw = kwargs_call_openai "The best pet is a " (Int 0) true
  | CallPresencePenalty presence_penalty =>
      kw = kwargs_presence_penalty presence_penalty
  | Cell13 =>
      exists presence_penalty, kw = kwargs_presence_penalty presence_penalty
  | NCell n => kw = kwargs_n n
  | Cell10 => kw = kwargs_n 2
  end.

(** ** Reading a request *)

(** The [n] a request asks for; the notebook documents the default 1. *)
Definition requested_n (kw : gmap string value) : nat :=
  match kw !! "n" with
  | Some (VNum (Int k)) => Z.to_nat k
  | _ => 1%nat
  end.

(** A request with a seed and temperature 0. *)
Definition seeded_greedy (kw : gmap string value) : bool :=
  match kw !! "seed", kw !! "temperature" with
  | Some (VNum (Int _)), Some (VNum t) => Qeq_bool (number_to_Q t) 0
  | _, _ => false
  end.

(** The documented penalty interval, [-2.0] to [2.0]. *)
Definition in_penalty_range (x : number) : bool :=
  Qle_bool (inject_Z (-2)) (number_to_Q x)
  && Qle_bool (number_to_Q x) (inject_Z 2).

End Notebook.

Arguments mkState {world}.
Arguments remote_state {world}.
Arguments log {world}.
Arguments stdout {world}.
Arguments ret {world A}.
Arguments raise {world A}.
Arguments bind {world A B}.
Arguments create {world}.
Arguments print {world}.
Arguments getitem {world A}.
Arguments for_each {world A}.
Arguments call_openai_with_max_tokens {world}.
Arguments cell_4 {world}.
Arguments call_openai {world}.
Arguments cell_7 {world}.
Arguments cell_8 {world}.
Arguments print_choices {world}.
Arguments n_cell {world}.
Arguments cell_10 {world}.
Arguments call_openai_with_presence_penalty {world}.
Arguments cell_13 {world}.
Arguments emits {world A}.
Arguments run {world}.
Arguments builds : clear implicits.

(** The user prompt an operation sends. *)
Definition prompt_of (op : operation) : string :=
  match op with
  | CallOpenai _ prompt _ _ => prompt
  | CallMaxTokens _ | CallPresencePenalty _ | Cell4 | Cell13 =>
      "The best pet is a"
  | NCell _ | Cell7 | Cell8 | Cell10 => "The best pet is a "
  end.

(** The operations that are [call_openai] with [use_seed=True]. *)
Definition passes_use_seed (op : operation) : bool :=
  match op with
  | CallOpenai _ _ _ use_seed => use_seed
  | Cell8 => true
  | _ => false
  end.

(** Requests an operation makes whether or not a call fails. *)
Definition requests_ensured (op : operation) : nat :=
  match op with
  | CallMaxTokens _ | CallPresencePenalty _ | NCell _ | Cell10 => 1
  | _ => 0
  end.

(** Requests an operation makes when no call fails. *)
Definition requests_planned (op : operation) : nat :=
  match op with
  | CallMaxTokens _ | CallPresencePenalty _ | NCell _ | Cell10 => 1
  | CallOpenai num_times _ _ _ => Z.to_nat num_times
  | Cell4 => 4
  | Cell7 | Cell8 => 10
  | Cell13 => 5
  end.

(** A request whose [messages] are the system prompt, then the user
    prompt. *)
Definition addressed (prompt : string) (kw : gmap string value) : Prop :=
  exists first second : gmap string string,
    kw !! "messages" = Some (VMessages [first; second])
    /\ first !! "role" = Some "system"
    /\ first !! "content" = Some "You are a helpful assistant."
    /\ second !! "role" = Some "user"
    /\ second !! "content" = Some prompt.

(** ** Reading a run back from its log *)

(** What [call_openai] prints for one call: the content of the first choice,
    when the call was answered with one. *)
Definition first_choice_line
    (call : gmap string value * (service_error + ChatCompletion))
    : option (list printable) :=
  match call.2 with
  | inr {| choices := first :: _ |} => Some [PStr (content (message first))]
  | _ => None
  end.

(** An outcome that gives the cells a text to print: a response with at
    least one choice. *)
Definition yields_text (outcome : service_error + ChatCompletion) : Prop :=
  exists first rest, outcome = inr {| choices := first :: rest |}.

(** What one round of the loops of cells 4 and 13 prints: the header naming
    the value, then, when the call was answered with a choice, the first
    choice's content and the ruler. *)
Definition round_lines (label : string) (x : number)
    (outcome : service_error + ChatCompletion) : list (list printable) :=
  [PFString [inl label; inr x; inl newline]]
  :: match outcome with
     | inr {| choices := first :: _ |} =>
         [ [PStr (content (message first))];
           [PStr (newline +:+ str_mul "-" 80 +:+ newline)] ]
     | _ => []
     end.

(** The keys of the requests an operation builds. *)
Definition fields_of (op : operation) : gset string :=
  {[ "model"; "messages"; "max_tokens" ]}
  ∪ match op with
    | CallMaxTokens _ | Cell4 => ∅
    | CallOpenai _ _ _ true | Cell8 => {[ "seed"; "temperature" ]}
    | CallOpenai _ _ _ false | Cell7 => {[ "temperature" ]}
    | CallPresencePenalty _ | Cell13 => {[ "presence_penalty" ]}
    | NCell _ | Cell10 => {[ "n" ]}
    end.

(** The code cells, top to bottom, as Run All executes them: a cell that
    raises stops the run. *)
Definition notebook {world : Type}
    (remote :
       gmap string value -> world -> (service_error + ChatCompletion) * world)
    (CHAT_COMPLETIONS_MODEL : option string) : M world unit :=
  bind (cell_4 remote CHAT_COMPLETIONS_MODEL) (fun _ =>
  bind (cell_7 remote CHAT_COMPLETIONS_MODEL) (fun _ =>
  bind (cell_8 remote CHAT_COMPLETIONS_MODEL) (fun _ =>
  bind (cell_10 remote CHAT_COMPLETIONS_MODEL) (fun _ =>
  cell_13 remote CHAT_COMPLETIONS_MODEL)))).

(** The requests an operation sends when no call fails, in order. *)
Definition plan (CHAT_COMPLETIONS_MODEL : option string) (op : operation)
    : list (gmap string value) :=
  match op with
  | CallMaxTokens max_tokens =>
      [kwargs_max_tokens CHAT_COMPLETIONS_MODEL max_tokens]
  | CallOpenai num_times prompt temperature use_seed =>
      replicate (Z.to_nat num_times)
        (kwargs_call_openai CHAT_COMPLETIONS_MODEL prompt temperature use_seed)
  | CallPresencePenalty presence_penalty =>
      [kwargs_presence_penalty CHAT_COMPLETIONS_MODEL presence_penalty]
  | NCell n => [kwargs_n CHAT_COMPLETIONS_MODEL n]
  | Cell4 =>
      kwargs_max_tokens CHAT_COMPLETIONS_MODEL
        <$> [Int 16; Int 32; Int 60; Int 100]
  | Cell7 =>
      replicate 10
        (kwargs_call_openai CHAT_COMPLETIONS_MODEL "The best pet is a "
           default_temperature false)
  | Cell8 =>
      replicate 10
        (kwargs_call_openai CHAT_COMPLETIONS_MODEL "The best pet is a "
           (Int 0) true)
  | Cell10 => [kwargs_n CHAT_COMPLETIONS_MODEL 2]
  | Cell13 =>
      kwargs_presence_penalty CHAT_COMPLETIONS_MODEL
        <$> [Int 0; Float (1 # 2); Float 1; Float (3 # 2); Float 2]
  end.

Definition notebook_plan (CHAT_COMPLETIONS_MODEL : option string)
    : list (gmap string value) :=
  plan CHAT_COMPLETIONS_MODEL Cell4 ++ plan CHAT_COMPLETIONS_MODEL Cell7
  ++ plan CHAT_COMPLETIONS_MODEL Cell8 ++ plan CHAT_COMPLETIONS_MODEL Cell10
  ++ plan CHAT_COMPLETIONS_MODEL Cell13.

(** [c] sends the requests of [planned] in order, one whole interaction
    each: a prefix of them however it ends, all of them when it returns. *)
Definition sends {world A : Type} (planned : list (gmap string value))
    (c : M world A) : Prop :=
  forall s, exists calls,
    log (c s).2 = log s ++ interactions calls
    /\ calls.*1 `prefix_of` planned
    /\ (forall a, (c s).1 = inr a -> calls.*1 = planned).


(** ** Small endpoints to run the cells against *)

Module Demo.

(** Field-wise validation: the documented penalty interval. *)
Definition acceptable (k : string) (v : value) : bool :=
  if String.eqb k "presence_penalty" || String.eqb k "frequency_penalty" then
    match v with
    | VNum x => in_penalty_range x
    | _ => false
    end
  else true.

Definition offending (kw : gmap string value) : option string :=
  let bad k := match kw !! k with
               | Some v => negb (acceptable k v)
               | None => false
               end in
  if bad "presence_penalty" then Some "presence_penalty"
  else if bad "frequency_penalty" then Some "frequency_penalty"
  else None.

Definition text (kw : gmap string value) (w i : nat) : string :=
  if seeded_greedy kw then "dog"
  else if Nat.even (w + i) then "cat" else "dog".

(** The remote state counts the calls served.  Answers vary with it unless
    the request is seeded at temperature 0. *)
Definition steady (kw : gmap string value) (w : nat)
    : (service_error + ChatCompletion) * nat :=
  match offending kw with
  | Some f => (inl (InvalidParameterError f), S w)
  | None =>
      (inr {| choices :=
                (fun i => {| message := {| content := text kw w i |} |})
                  <$> seq 0 (requested_n kw) |},
       S w)
  end.

(** An endpoint that answers every request with two choices. *)
Definition chatty (kw : gmap string value) (w : nat)
    : (service_error + ChatCompletion) * nat :=
  (inr {| choices := [ {| message := {| content := "cat" |} |};
                       {| message := {| content := "dog" |} |} ] |},
   S w).

(** The same endpoint behind a quota of two calls. *)
Definition metered (kw : gmap string value) (w : nat)
    : (service_error + ChatCompletion) * nat :=
  if Nat.leb 2 w then (inl RemoteServiceError, S w) else chatty kw w.


(** An endpoint that answers with no choice at all. *)
Definition mute (kw : gmap string value) (w : nat)
    : (service_error + ChatCompletion) * nat :=
  (inr {| choices := [] |}, S w).


Definition start : state nat := mkState 0%nat [] [].


End Demo.


(** * Properties *)

Section Properties.

Context {world : Type}.
Variable remote :
  gmap string value -> world -> (service_error + ChatCompletion) * world.
Variable CHAT_COMPLETIONS_MODEL : option string.

Notation "x <- c ;; k" := (bind c (fun x => k))
  (at level 100, c at next level, right associativity).

(** ** The monad and the log *)

Lemma create_eq (kw : gmap string value) (s : state world) :
  create remote kw s =
    (match (remote kw (remote_state s)).1 with
     | inl e => inl (ServiceError e)
     | inr response => inr response
     end,
     mkState (remote kw (remote_state s)).2
       (log s ++ [Issued kw; Completed (remote kw (remote_state s)).1])
       (stdout s)).
Proof. unfold create. by destruct (remote kw (remote_state s)). Qed.

Lemma call_openai_eq num_times prompt temperature use_seed :
  call_openai remote CHAT_COMPLETIONS_MODEL num_times prompt temperature
    use_seed
  = for_each (range num_times) (fun _ =>
      response <- create remote
                    (kwargs_call_openai CHAT_COMPLETIONS_MODEL prompt
                       temperature use_seed) ;;
      c <- getitem (choices response) 0 ;;
      print [PStr (content (message c))]).
Proof. by destruct use_seed. Qed.

Lemma interactions_app calls1 calls2 :
  interactions (calls1 ++ calls2) = interactions calls1 ++ interactions calls2.
Proof. unfold interactions. apply flat_map_app. Qed.

Lemma emits_weaken {A : Type} (P Q : gmap string value -> Prop) lo lo' hi
    (c : M world A) :
  (forall kw, P kw -> Q kw) -> (lo' <= lo)%nat ->
  emits P lo hi c -> emits Q lo' hi c.
Proof.
  intros HPQ Hlo Hc s. destruct (Hc s) as (calls & Hlog & HP & Hlen & Hok).
  exists calls. repeat split; [done | | lia | lia | done].
  eapply Forall_impl; [exact HP | intros call; apply HPQ].
Qed.

Lemma emits_ret {A : Type} (P : gmap string value -> Prop) (a : A) :
  emits (world := world) P 0 0 (ret a).
Proof.
  intros s. exists []. cbn. rewrite app_nil_r. repeat split; auto.
Qed.

Lemma emits_raise {A : Type} (P : gmap string value -> Prop) (e : exn) :
  emits (world := world) (A := A) P 0 0 (raise e).
Proof.
  intros s. exists []. cbn. rewrite app_nil_r. repeat split; auto.
Qed.

Lemma emits_print (P : gmap string value -> Prop) (args : list printable) :
  emits (world := world) P 0 0 (print args).
Proof.
  intros s. exists []. cbn. rewrite app_nil_r. repeat split; auto.
Qed.

Lemma emits_getitem {A : Type} (P : gmap string value -> Prop) (l : list A)
    (i : nat) :
  emits (world := world) P 0 0 (getitem l i).
Proof.
  unfold getitem. destruct (l !! i); [apply emits_ret | apply emits_raise].
Qed.

Lemma emits_create (P : gmap string value -> Prop) (kw : gmap string value) :
  P kw -> emits P 1 1 (create remote kw).
Proof.
  intros HP s. exists [(kw, (remote kw (remote_state s)).1)].
  rewrite create_eq. cbn. repeat split; auto.
Qed.

Lemma emits_bind {A B : Type} (P : gmap string value -> Prop) lo lo' hi hi'
    (c : M world A) (k : A -> M world B) :
  emits P lo hi c -> (forall a, emits P lo' hi' (k a)) ->
  emits P lo (hi + hi') (bind c k).
Proof.
  intros Hc Hk s. destruct (Hc s) as (calls & Hlog & HP & Hlen & Hok).
  unfold bind. destruct (c s) as [[e | a] s'] eqn:Hcs; cbn in *.
  - exists calls. repeat split; [done | done | lia | lia | discriminate].
  - destruct (Hk a s') as (calls' & Hlog' & HP' & Hlen' & Hok').
    exists (calls ++ calls'). rewrite Hlog', Hlog, interactions_app, length_app.
    specialize (Hok a eq_refl).
    repeat split; [by rewrite app_assoc | by apply Forall_app | lia | lia |].
    intros b Hb. rewrite (Hok' b Hb). lia.
Qed.

Lemma emits_for_each {A : Type} (P : gmap string value -> Prop) lo hi
    (xs : list A) (body : A -> M world unit) :
  (forall x, emits P lo hi (body x)) ->
  emits P 0 (length xs * hi) (for_each xs body).
Proof.
  intros Hbody. induction xs as [| x xs IH]; cbn [for_each length].
  - apply emits_ret.
  - replace (S (length xs) * hi)%nat with (hi + length xs * hi)%nat by lia.
    eapply emits_weaken with (P := P) (lo := lo); [done | lia |].
    eapply emits_bind; [apply Hbody | intros _; exact IH].
Qed.

Lemma length_range (n : Z) : length (range n) = Z.to_nat n.
Proof. unfold range. by rewrite length_fmap, length_seq. Qed.


(** ** What each function emits *)

Lemma emits_call_openai_with_max_tokens P (max_tokens : number) :
  P (kwargs_max_tokens CHAT_COMPLETIONS_MODEL max_tokens) ->
  emits P 1 1
    (call_openai_with_max_tokens remote CHAT_COMPLETIONS_MODEL max_tokens).
Proof.
  intros HP. unfold call_openai_with_max_tokens.
  change 1%nat with (1 + (0 + 0))%nat at 2.
  eapply emits_bind; [by apply emits_create |].
  intros response. eapply emits_bind; [apply emits_getitem |].
  intros c. apply emits_ret.
Qed.

Lemma emits_call_openai_with_presence_penalty P (presence_penalty : number) :
  P (kwargs_presence_penalty CHAT_COMPLETIONS_MODEL presence_penalty) ->
  emits P 1 1
    (call_openai_with_presence_penalty remote CHAT_COMPLETIONS_MODEL
       presence_penalty).
Proof.
  intros HP. unfold call_openai_with_presence_penalty.
  change 1%nat with (1 + (0 + 0))%nat at 2.
  eapply emits_bind; [by apply emits_create |].
  intros response. eapply emits_bind; [apply emits_getitem |].
  intros c. apply emits_ret.
Qed.

Lemma emits_call_openai P num_times prompt temperature use_seed :
  P (kwargs_call_openai CHAT_COMPLETIONS_MODEL prompt temperature use_seed) ->
  emits P 0 (Z.to_nat num_times)
    (call_openai remote CHAT_COMPLETIONS_MODEL num_times prompt temperature
       use_seed).
Proof.
  intros HP. rewrite call_openai_eq.
  replace (Z.to_nat num_times) with (length (range num_times) * 1)%nat
    by (rewrite length_range; lia).
  apply emits_for_each with (lo := 1%nat). intros _.
  change 1%nat with (1 + (0 + 0))%nat at 2.
  eapply emits_bind; [by apply emits_create |].
  intros response. eapply emits_bind; [apply emits_getitem |].
  intros c. apply emits_print.
Qed.

Lemma emits_print_choices P (response : ChatCompletion) :
  emits (world := world) P 0 0 (print_choices response).
Proof.
  unfold print_choices.
  replace 0%nat with (length (enumerate (choices response)) * 0)%nat at 2
    by lia.
  apply emits_for_each with (lo := 0%nat). intros [index c]. apply emits_print.
Qed.

Lemma emits_n_cell P (n : Z) :
  P (kwargs_n CHAT_COMPLETIONS_MODEL n) ->
  emits P 1 1 (n_cell remote CHAT_COMPLETIONS_MODEL n).
Proof.
  intros HP. unfold n_cell. change 1%nat with (1 + 0)%nat at 2.
  eapply emits_bind; [by apply emits_create |].
  intros response. apply emits_print_choices.
Qed.

Lemma emits_cell_4 P :
  (forall max_tokens, P (kwargs_max_tokens CHAT_COMPLETIONS_MODEL max_tokens)) ->
  emits P 0 4 (cell_4 remote CHAT_COMPLETIONS_MODEL).
Proof.
  intros HP. unfold cell_4.
  apply (emits_for_each P 0 1 [Int 16; Int 32; Int 60; Int 100]).
  intros penalty. change 1%nat with (0 + (1 + (0 + 0)))%nat.
  eapply emits_bind; [apply emits_print |]. intros _.
  eapply emits_bind; [by apply emits_call_openai_with_max_tokens |].
  intros text. eapply emits_bind; [apply emits_print |]. intros _.
  apply emits_print.
Qed.

Lemma emits_cell_13 P :
  (forall presence_penalty,
     P (kwargs_presence_penalty CHAT_COMPLETIONS_MODEL presence_penalty)) ->
  emits P 0 5 (cell_13 remote CHAT_COMPLETIONS_MODEL).
Proof.
  intros HP. unfold cell_13.
  apply (emits_for_each P 0 1
           [Int 0; Float (1 # 2); Float 1; Float (3 # 2); Float 2]).
  intros penalty. change 1%nat with (0 + (1 + (0 + 0)))%nat.
  eapply emits_bind; [apply emits_print |]. intros _.
  eapply emits_bind; [by apply emits_call_openai_with_presence_penalty |].
  intros text. eapply emits_bind; [apply emits_print |]. intros _.
  apply emits_print.
Qed.

Lemma emits_run (op : operation) :
  emits (builds CHAT_COMPLETIONS_MODEL op) (requests_ensured op)
    (requests_planned op) (run remote CHAT_COMPLETIONS_MODEL op).
Proof.
  destruct op; cbn [run requests_ensured requests_planned].
  - change 1%nat with (1 + 0)%nat at 2.
    eapply emits_bind;
      [by apply emits_call_openai_with_max_tokens | intros; apply emits_ret].
  - by apply emits_call_openai.
  - change 1%nat with (1 + 0)%nat at 2.
    eapply emits_bind;
      [by apply emits_call_openai_with_presence_penalty
      | intros; apply emits_ret].
  - by apply emits_n_cell.
  - apply emits_cell_4. intros max_tokens. by exists max_tokens.
  - by apply (emits_call_openai _ 10).
  - by apply (emits_call_openai _ 10).
  - by apply emits_n_cell.
  - apply emits_cell_13. intros p. by exists p.
Qed.

Lemma outstanding_prefix calls (pre : list event) :
  pre `prefix_of` interactions calls -> 0 <= outstanding pre <= 1.
Proof.
  revert pre. induction calls as [| [kw outcome] calls IH]; intros pre Hpre.
  - apply prefix_nil_inv in Hpre. subst. cbn. lia.
  - cbn in Hpre. destruct pre as [| ev1 [| ev2 pre]].
    + cbn. lia.
    + apply prefix_cons_inv_1 in Hpre. subst. cbn. lia.
    + pose proof (prefix_cons_inv_1 _ _ _ _ Hpre) as ->.
      apply prefix_cons_inv_2 in Hpre.
      pose proof (prefix_cons_inv_1 _ _ _ _ Hpre) as ->.
      apply prefix_cons_inv_2, IH in Hpre. cbn. lia.
Qed.

Lemma builds_addressed (op : operation) (kw : gmap string value) :
  builds CHAT_COMPLETIONS_MODEL op kw -> addressed (prompt_of op) kw.
Proof.
  intros Hkw.
  assert (kw !! "messages"
          = Some (VMessages [system_message; user_message (prompt_of op)]))
    as Hm.
  { destruct op; cbn in Hkw;
      repeat match goal with H : ex _ |- _ => destruct H end; subst kw;
      try reflexivity.
    unfold kwargs_call_openai. by destruct use_seed. }
  exists system_message, (user_message (prompt_of op)).
  repeat split; done.
Qed.

Lemma builds_fields (op : operation) (kw : gmap string value) :
  builds CHAT_COMPLETIONS_MODEL op kw ->
  kw !! "frequency_penalty" = None
  /\ kw !! "top_p" = None
  /\ kw !! "stop" = None
  /\ (is_Some (kw !! "seed") -> passes_use_seed op = true)
  /\ (passes_use_seed op = true -> kw !! "seed" = Some (VNum (Int SEED))).
Proof.
  intros Hkw.
  destruct op; cbn in Hkw;
    repeat match goal with H : ex _ |- _ => destruct H end; subst kw;
    try (repeat split; try reflexivity;
         first [intros [v Hv]; discriminate Hv | intros Hs; discriminate Hs]).
  unfold kwargs_call_openai. destruct use_seed;
    repeat split; try reflexivity;
    first [intros [v Hv]; discriminate Hv | intros Hs; discriminate Hs].
Qed.

(** ** The claims about the code alone *)

(** C6. When a single-completion wrapper returns, what it returns is the
    content of the first choice of the response the endpoint gave to its one
    request; the choices after the first play no part. *)
Theorem wrappers_return_first_choice (s : state world) (x : number)
    (text : string) :
  ((call_openai_with_max_tokens remote CHAT_COMPLETIONS_MODEL x s).1
     = inr text ->
   exists first rest,
     (remote (kwargs_max_tokens CHAT_COMPLETIONS_MODEL x) (remote_state s)).1
       = inr {| choices := first :: rest |}
     /\ text = content (message first))
  /\ ((call_openai_with_presence_penalty remote CHAT_COMPLETIONS_MODEL x s).1
        = inr text ->
      exists first rest,
        (remote (kwargs_presence_penalty CHAT_COMPLETIONS_MODEL x)
           (remote_state s)).1
          = inr {| choices := first :: rest |}
        /\ text = content (message first)).
Proof.
  split.
  - unfold call_openai_with_max_tokens, bind. rewrite create_eq.
    destruct (remote _ _).1 as [e | [[| first rest]]]; cbn; intros H;
      try discriminate H.
    exists first, rest. split; [done | congruence].
  - unfold call_openai_with_presence_penalty, bind. rewrite create_eq.
    destruct (remote _ _).1 as [e | [[| first rest]]]; cbn; intros H;
      try discriminate H.
    exists first, rest. split; [done | congruence].
Qed.

(** C7. Whatever operation of the notebook runs, from whatever state, every
    request it issues has exactly two messages: first the system message
    "You are a helpful assistant.", then the user message with the
    operation's prompt.  An operation that returns has issued all the
    requests it plans, so the statement is about actual requests. *)
Theorem requests_carry_system_then_user_prompt (op : operation)
    (s : state world) :
  exists calls,
    log (run remote CHAT_COMPLETIONS_MODEL op s).2
      = log s ++ interactions calls
    /\ Forall (fun call => addressed (prompt_of op) call.1) calls
    /\ ((run remote CHAT_COMPLETIONS_MODEL op s).1 = inr tt ->
        length calls = requests_planned op).
Proof.
  destruct (emits_run op s) as (calls & Hlog & Hkw & _ & Hok).
  exists calls. repeat split; [done | | by apply Hok].
  eapply Forall_impl; [exact Hkw |]. intros call. apply builds_addressed.
Qed.

(** C10. No request of any operation of the notebook has a
    [frequency_penalty], [top_p] or [stop] field, and one that has a [seed]
    field comes from [call_openai] called with [use_seed=True] (whose
    requests all carry [seed=123]).  An operation that returns has issued
    all the requests it plans, so the statement is about actual requests. *)
Theorem requests_omit_unused_fields (op : operation) (s : state world) :
  exists calls,
    log (run remote CHAT_COMPLETIONS_MODEL op s).2
      = log s ++ interactions calls
    /\ Forall (fun call =>
                 call.1 !! "frequency_penalty" = None
                 /\ call.1 !! "top_p" = None
                 /\ call.1 !! "stop" = None
                 /\ (is_Some (call.1 !! "seed") ->
                     passes_use_seed op = true)
                 /\ (passes_use_seed op = true ->
                     call.1 !! "seed" = Some (VNum (Int SEED)))) calls
    /\ ((run remote CHAT_COMPLETIONS_MODEL op s).1 = inr tt ->
        length calls = requests_planned op).
Proof.
  destruct (emits_run op s) as (calls & Hlog & Hkw & _ & Hok).
  exists calls. repeat split; [done | | by apply Hok].
  eapply Forall_impl; [exact Hkw |]. intros call. apply builds_fields.
Qed.

(** X2. Every request of every operation carries [max_tokens]: the notebook
    never sends a request that leaves all optional parameters out. *)
Theorem requests_carry_max_tokens (op : operation) (s : state world) :
  exists calls,
    log (run remote CHAT_COMPLETIONS_MODEL op s).2
      = log s ++ interactions calls
    /\ Forall (fun call => exists x, call.1 !! "max_tokens" = Some (VNum x))
         calls
    /\ ((run remote CHAT_COMPLETIONS_MODEL op s).1 = inr tt ->
        length calls = requests_planned op).
Proof.
  destruct (emits_run op s) as (calls & Hlog & Hkw & _ & Hok).
  exists calls. repeat split; [done | | by apply Hok].
  eapply Forall_impl; [exact Hkw |]. intros [kw outcome] Hb. cbn in *.
  destruct op; cbn in Hb;
    repeat match goal with H : ex _ |- _ => destruct H end; subst kw;
    try (by eexists).
  unfold kwargs_call_openai. destruct use_seed; by eexists.
Qed.

(** X1. When the endpoint answers with an empty list of choices, the wrappers
    raise [IndexError] (from [response.choices[0]]), after their one call. *)
Theorem empty_response_raises_index_error (x : number) (s : state world) :
  ((remote (kwargs_max_tokens CHAT_COMPLETIONS_MODEL x) (remote_state s)).1
     = inr {| choices := [] |} ->
   (call_openai_with_max_tokens remote CHAT_COMPLETIONS_MODEL x s).1
     = inl IndexError)
  /\ ((remote (kwargs_presence_penalty CHAT_COMPLETIONS_MODEL x)
         (remote_state s)).1
       = inr {| choices := [] |} ->
      (call_openai_with_presence_penalty remote CHAT_COMPLETIONS_MODEL x s).1
        = inl IndexError).
Proof.
  split; intros Hout.
  - unfold call_openai_with_max_tokens, bind. by rewrite create_eq, Hout.
  - unfold call_openai_with_presence_penalty, bind.
    by rewrite create_eq, Hout.
Qed.

(** ** The choices of a response *)

Lemma for_each_print {A : Type} (xs : list A) (body : A -> M world unit)
    (line : A -> list printable) (s : state world) :
  (forall x, body x = print (line x)) ->
  for_each xs body s
  = (inr tt, mkState (remote_state s) (log s) (stdout s ++ (line <$> xs))).
Proof.
  intros Hbody. revert s. induction xs as [| x xs IH]; intros s.
  - cbn. rewrite app_nil_r. by destruct s.
  - cbn [for_each]. unfold bind. rewrite Hbody. cbn. rewrite IH. cbn.
    by rewrite <- app_assoc.
Qed.

Lemma print_choices_eq (response : ChatCompletion) (s : state world) :
  print_choices response s
  = (inr tt,
     mkState (remote_state s) (log s)
       (stdout s
        ++ ((fun p => [PInt p.1; PStr (content (message p.2))])
              <$> enumerate (choices response)))).
Proof.
  unfold print_choices. apply for_each_print. by intros [index c].
Qed.


End Properties.

(** ** The theorems at work on the demo endpoints *)

Lemma wrappers_return_first_choice_witness :
  (call_openai_with_max_tokens Demo.chatty None (Int 16) Demo.start).1
    = inr "cat"
  /\ exists first rest,
       (Demo.chatty (kwargs_max_tokens None (Int 16)) 0%nat).1
         = inr {| choices := first :: rest |}
       /\ "cat" = content (message first).
Proof.
  split; [reflexivity |].
  apply (proj1 (wrappers_return_first_choice Demo.chatty None Demo.start
                  (Int 16) "cat")).
  reflexivity.
Defined.

Lemma empty_response_raises_index_error_witness :
  (Demo.mute (kwargs_max_tokens None (Int 16)) 0%nat).1
    = inr {| choices := [] |}
  /\ (call_openai_with_max_tokens Demo.mute None (Int 16) Demo.start).1
     = inl IndexError.
Proof.
  split; [reflexivity |].
  apply (proj1 (empty_response_raises_index_error Demo.mute None (Int 16)
                  Demo.start)).
  reflexivity.
Defined.

(** * More of the notebook: loops, transcripts, composition *)

Section Coverage.

Context {world : Type}.
Variable remote :
  gmap string value -> world -> (service_error + ChatCompletion) * world.
Variable CHAT_COMPLETIONS_MODEL : option string.

Notation "x <- c ;; k" := (bind c (fun x => k))
  (at level 100, c at next level, right associativity).

(** ** One iteration of [call_openai] *)

Lemma iteration_eq (kw : gmap string value) (s : state world) :
  (response <- create remote kw ;;
   c <- getitem (choices response) 0 ;;
   print [PStr (content (message c))]) s
  = let outcome := (remote kw (remote_state s)).1 in
    (match outcome with
     | inl e => inl (ServiceError e)
     | inr {| choices := [] |} => inl IndexError
     | inr _ => inr tt
     end,
     mkState (remote kw (remote_state s)).2
       (log s ++ [Issued kw; Completed outcome])
       (stdout s ++ match first_choice_line (kw, outcome) with
                    | Some line => [line]
                    | None => []
                    end)).
Proof.
  unfold bind. rewrite create_eq.
  destruct (remote kw (remote_state s)).1 as [e | [[| first rest]]];
    cbn; by rewrite ?app_nil_r.
Qed.

Lemma loop_transcript {A : Type} (xs : list A) (kw : gmap string value)
    (body : M world unit) (s : state world) :
  (forall s',
     body s'
     = let outcome := (remote kw (remote_state s')).1 in
       (match outcome with
        | inl e => inl (ServiceError e)
        | inr {| choices := [] |} => inl IndexError
        | inr _ => inr tt
        end,
        mkState (remote kw (remote_state s')).2
          (log s' ++ [Issued kw; Completed outcome])
          (stdout s' ++ match first_choice_line (kw, outcome) with
                        | Some line => [line]
                        | None => []
                        end))) ->
  let loop := for_each xs (fun _ => body) in
  exists calls,
    log (loop s).2 = log s ++ interactions calls
    /\ Forall (fun call => call.1 = kw) calls
    /\ stdout (loop s).2 = stdout s ++ omap first_choice_line calls
    /\ match (loop s).1 with
       | inr _ =>
           length calls = length xs
           /\ Forall (fun call => is_Some (first_choice_line call)) calls
       | inl err =>
           exists earlier last,
             calls = earlier ++ [last]
             /\ Forall (fun call => is_Some (first_choice_line call)) earlier
             /\ first_choice_line last = None
             /\ err = match last.2 with
                      | inl e => ServiceError e
                      | inr _ => IndexError
                      end
       end.
Proof.
  intros Hbody loop. subst loop. revert s.
  induction xs as [| x xs IH]; intros s.
  - exists []. cbn. by rewrite !app_nil_r.
  - cbn [for_each]. unfold bind. rewrite Hbody. cbn zeta.
    destruct (remote kw (remote_state s)).1 as [e | [[| first rest]]] eqn:Hout.
    + exists [(kw, inl e)]. cbn. rewrite app_nil_r.
      repeat split; [by apply Forall_singleton |].
      by exists [], (kw, inl e).
    + exists [(kw, inr {| choices := [] |})]. cbn. rewrite app_nil_r.
      repeat split; [by apply Forall_singleton |].
      by exists [], (kw, inr {| choices := [] |}).
    + cbn [first_choice_line snd].
      match goal with
      | |- context [for_each xs _ ?s'] =>
          destruct (IH s') as (calls & Hlog & Hkw & Hout' & Hres)
      end.
      exists ((kw, inr {| choices := first :: rest |}) :: calls).
      rewrite Hlog, Hout'. cbn [log stdout].
      split; [by rewrite <- app_assoc |].
      split; [by apply Forall_cons |].
      split; [by rewrite <- app_assoc |].
      destruct (for_each xs _ _).1 as [err | []].
      * destruct Hres as (earlier & last & -> & Hearlier & Hlast & ->).
        exists ((kw, inr {| choices := first :: rest |}) :: earlier), last.
        repeat split; try done. apply Forall_cons. split; [by eexists | done].
      * destruct Hres as [Hlen Hall]. cbn. split; [by rewrite Hlen |].
        apply Forall_cons. split; [by eexists | done].
Qed.

(** X3. Whatever the endpoint does, [call_openai] sends the same request
    in every iteration and prints, in order, the first choice's content of
    each answered call and nothing else.  When it returns it has made
    [num_times] calls, each of which gave a line; when it raises, the call
    that gave no line is the last one, and the exception is that call's
    failure, or [IndexError] when it was answered without a choice. *)
Theorem call_openai_prints_first_choices (num_times : Z) (prompt : string)
    (temperature : number) (use_seed : bool) (s : state world) :
  let run :=
    call_openai remote CHAT_COMPLETIONS_MODEL num_times prompt temperature
      use_seed s in
  exists calls,
    log run.2 = log s ++ interactions calls
    /\ Forall (fun call =>
                 call.1 = kwargs_call_openai CHAT_COMPLETIONS_MODEL prompt
                            temperature use_seed) calls
    /\ stdout run.2 = stdout s ++ omap first_choice_line calls
    /\ match run.1 with
       | inr _ =>
           length calls = Z.to_nat num_times
           /\ Forall (fun call => is_Some (first_choice_line call)) calls
       | inl err =>
           exists earlier last,
             calls = earlier ++ [last]
             /\ Forall (fun call => is_Some (first_choice_line call)) earlier
             /\ first_choice_line last = None
             /\ err = match last.2 with
                      | inl e => ServiceError e
                      | inr _ => IndexError
                      end
       end.
Proof.
  intros run. subst run. rewrite call_openai_eq.
  destruct (loop_transcript (range num_times)
              (kwargs_call_openai CHAT_COMPLETIONS_MODEL prompt temperature
                 use_seed) _ s (iteration_eq _))
    as (calls & Hlog & Hkw & Hout & Hres).
  exists calls. repeat split; try done.
  destruct (for_each _ _ s).1 as [err | []]; [done |].
  by rewrite <- (length_range num_times).
Qed.

(** ** How [call_openai] composes *)

Lemma for_each_app {A : Type} (xs ys : list A) (body : A -> M world unit)
    (s : state world) :
  for_each (xs ++ ys) body s
  = bind (for_each xs body) (fun _ => for_each ys body) s.
Proof.
  revert s. induction xs as [| x xs IH]; intros s; [done |].
  cbn [app for_each]. unfold bind.
  destruct (body x s) as [[err | []] s']; [done |]. by rewrite IH.
Qed.

Lemma for_each_same_length {A B : Type} (xs : list A) (ys : list B)
    (c : M world unit) (s : state world) :
  length xs = length ys ->
  for_each xs (fun _ => c) s = for_each ys (fun _ => c) s.
Proof.
  revert ys s. induction xs as [| x xs IH]; intros [| y ys] s Hlen;
    try done.
  cbn [for_each]. unfold bind.
  destruct (c s) as [[err | []] s']; [done |]. apply IH. by injection Hlen.
Qed.

(** X4. With [num_times] zero or negative, [call_openai] returns at once:
    no request, no output, the state as it was. *)
Theorem call_openai_nonpositive (num_times : Z) (prompt : string)
    (temperature : number) (use_seed : bool) (s : state world) :
  num_times <= 0 ->
  call_openai remote CHAT_COMPLETIONS_MODEL num_times prompt temperature
    use_seed s
  = (inr tt, s).
Proof.
  intros Hn. unfold call_openai, range.
  by replace (Z.to_nat num_times) with 0%nat by lia.
Qed.

(** X5. A run of [a + b] iterations is a run of [a] iterations followed,
    when it returns, by a run of [b] iterations from the state it left. *)
Theorem call_openai_split (a b : Z) (prompt : string) (temperature : number)
    (use_seed : bool) (s : state world) :
  0 <= a -> 0 <= b ->
  call_openai remote CHAT_COMPLETIONS_MODEL (a + b) prompt temperature
    use_seed s
  = bind
      (call_openai remote CHAT_COMPLETIONS_MODEL a prompt temperature
         use_seed)
      (fun _ =>
         call_openai remote CHAT_COMPLETIONS_MODEL b prompt temperature
           use_seed) s.
Proof.
  intros Ha Hb.
  rewrite (call_openai_eq remote CHAT_COMPLETIONS_MODEL (a + b)).
  rewrite (for_each_same_length (range (a + b)) (range a ++ range b)).
  - rewrite for_each_app. by rewrite <- !call_openai_eq.
  - rewrite length_app, !length_range. lia.
Qed.

(** X6. Once a run of [call_openai] has raised, asking for more iterations
    changes nothing: from the same state, any larger [num_times] gives the
    same exception, the same requests and the same output. *)
Theorem call_openai_failure_is_final (n m : Z) (prompt : string)
    (temperature : number) (use_seed : bool) (s : state world) (err : exn) :
  n <= m ->
  (call_openai remote CHAT_COMPLETIONS_MODEL n prompt temperature use_seed
     s).1 = inl err ->
  call_openai remote CHAT_COMPLETIONS_MODEL m prompt temperature use_seed s
  = call_openai remote CHAT_COMPLETIONS_MODEL n prompt temperature use_seed
      s.
Proof.
  intros Hnm Herr.
  destruct (Z.le_gt_cases n 0) as [Hn | Hn].
  { by rewrite (call_openai_nonpositive n) in Herr. }
  replace m with (n + (m - n)) by lia.
  rewrite call_openai_split by lia. unfold bind.
  by destruct (call_openai remote CHAT_COMPLETIONS_MODEL n prompt temperature
                 use_seed s) as [[e | []] s'].
Qed.

(** ** The [n] cell on any response *)

(** X7. The [n] cell needs no promise from the endpoint: it raises exactly
    when its one call fails, with that failure, and otherwise returns having
    printed one line per choice that came back, index then content, in
    order; a response with no choice prints nothing and raises nothing. *)
Theorem n_cell_prints_what_came_back (n : Z) (s : state world) :
  let outcome :=
    (remote (kwargs_n CHAT_COMPLETIONS_MODEL n) (remote_state s)).1 in
  (n_cell remote CHAT_COMPLETIONS_MODEL n s).1
  = match outcome with
    | inl e => inl (ServiceError e)
    | inr _ => inr tt
    end
  /\ stdout (n_cell remote CHAT_COMPLETIONS_MODEL n s).2
     = stdout s
       ++ match outcome with
          | inl _ => []
          | inr response =>
              imap (fun i c =>
                      [PInt (Z.of_nat i); PStr (content (message c))])
                (choices response)
          end.
Proof.
  intros outcome. subst outcome. unfold n_cell, bind. rewrite create_eq.
  destruct (remote _ _).1 as [e | response]; cbn.
  - by rewrite app_nil_r.
  - rewrite print_choices_eq. cbn. split; [done |]. f_equal.
    unfold enumerate. rewrite fmap_imap. by apply imap_ext.
Qed.

(** ** The loops of cells 4 and 13 *)

Lemma rounds_transcript (label : string)
    (kwargs : number -> gmap string value) (body : number -> M world unit)
    (xs : list number) (s : state world) :
  (forall x s',
     body x s'
     = let outcome := (remote (kwargs x) (remote_state s')).1 in
       (match outcome with
        | inl e => inl (ServiceError e)
        | inr {| choices := [] |} => inl IndexError
        | inr _ => inr tt
        end,
        mkState (remote (kwargs x) (remote_state s')).2
          (log s' ++ [Issued (kwargs x); Completed outcome])
          (stdout s' ++ round_lines label x outcome))) ->
  exists outcomes,
    (length outcomes <= length xs)%nat
    /\ log (for_each xs body s).2
       = log s ++ interactions (zip (kwargs <$> xs) outcomes)
    /\ stdout (for_each xs body s).2
       = stdout s ++ concat (zip_with (round_lines label) xs outcomes)
    /\ match (for_each xs body s).1 with
       | inr _ => length outcomes = length xs /\ Forall yields_text outcomes
       | inl err =>
           exists earlier last,
             outcomes = earlier ++ [last]
             /\ Forall yields_text earlier
             /\ ~ yields_text last
             /\ (forall y,
                   round_lines label y last
                   = [[PFString [inl label; inr y; inl newline]]])
             /\ err = match last with
                      | inl e => ServiceError e
                      | inr _ => IndexError
                      end
       end.
Proof.
  intros Hbody. revert s. induction xs as [| x xs IH]; intros s.
  - exists []. cbn. split; [lia |]. by rewrite !app_nil_r.
  - cbn [for_each]. unfold bind. rewrite Hbody. cbn zeta.
    destruct (remote (kwargs x) (remote_state s)).1
      as [e | [[| first rest]]] eqn:Hout.
    + exists [inl e]. cbn. rewrite !zip_with_nil_r. cbn.
      split; [lia |]. split; [done |]. split; [done |].
      exists [], (inl e). repeat split; try done.
      by intros (first & rest & Hfirst).
    + exists [inr {| choices := [] |}]. cbn. rewrite !zip_with_nil_r. cbn.
      split; [lia |]. split; [done |]. split; [done |].
      exists [], (inr {| choices := [] |}). repeat split; try done.
      by intros (first & rest' & Hfirst).
    + match goal with
      | |- context [for_each xs body ?s'] =>
          destruct (IH s') as (outcomes & Hlen & Hlog & Hout' & Hres)
      end.
      exists (inr {| choices := first :: rest |} :: outcomes).
      rewrite Hlog, Hout'. cbn [log stdout length].
      split; [lia |].
      split; [cbn; by rewrite <- app_assoc |].
      split; [cbn; by rewrite <- !app_assoc |].
      destruct (for_each xs body _).1 as [err | []].
      * destruct Hres as (earlier & last & -> & Hearlier & Hno & Hlast & ->).
        exists (inr {| choices := first :: rest |} :: earlier), last.
        repeat split; try done.
        apply Forall_cons. split; [by exists first, rest | done].
      * destruct Hres as [Hres Hall]. split; [by rewrite Hres |].
        apply Forall_cons. split; [by exists first, rest | done].
Qed.

Lemma round_max_tokens_eq (x : number) (s : state world) :
  (bind (print [PFString [inl "Max Tokens: "; inr x; inl newline]]) (fun _ =>
   text <- call_openai_with_max_tokens remote CHAT_COMPLETIONS_MODEL x ;;
   bind (print [PStr text]) (fun _ =>
   print [PStr (newline +:+ str_mul "-" 80 +:+ newline)]))) s
  = let kw := kwargs_max_tokens CHAT_COMPLETIONS_MODEL x in
    let outcome := (remote kw (remote_state s)).1 in
    (match outcome with
     | inl e => inl (ServiceError e)
     | inr {| choices := [] |} => inl IndexError
     | inr _ => inr tt
     end,
     mkState (remote kw (remote_state s)).2
       (log s ++ [Issued kw; Completed outcome])
       (stdout s ++ round_lines "Max Tokens: " x outcome)).
Proof.
  unfold call_openai_with_max_tokens, bind, print. cbv beta iota.
  rewrite create_eq. cbn [remote_state log stdout].
  destruct (remote _ _).1 as [e | [[| first rest]]]; cbn;
    by rewrite <- ?app_assoc.
Qed.

Lemma round_presence_penalty_eq (x : number) (s : state world) :
  (bind (print [PFString [inl "Presence Penalty: "; inr x; inl newline]])
     (fun _ =>
   text <- call_openai_with_presence_penalty remote CHAT_COMPLETIONS_MODEL x ;;
   bind (print [PStr text]) (fun _ =>
   print [PStr (newline +:+ str_mul "-" 80 +:+ newline)]))) s
  = let kw := kwargs_presence_penalty CHAT_COMPLETIONS_MODEL x in
    let outcome := (remote kw (remote_state s)).1 in
    (match outcome with
     | inl e => inl (ServiceError e)
     | inr {| choices := [] |} => inl IndexError
     | inr _ => inr tt
     end,
     mkState (remote kw (remote_state s)).2
       (log s ++ [Issued kw; Completed outcome])
       (stdout s ++ round_lines "Presence Penalty: " x outcome)).
Proof.
  unfold call_openai_with_presence_penalty, bind, print. cbv beta iota.
  rewrite create_eq. cbn [remote_state log stdout].
  destruct (remote _ _).1 as [e | [[| first rest]]]; cbn;
    by rewrite <- ?app_assoc.
Qed.

(** X8. Cell 4 goes through 16, 32, 60, 100 in order and stops at the first
    call that gives no text.  For each value it reached it has sent one
    request with that [max_tokens] and printed the header naming the value;
    the first choice's content and the ruler follow the header exactly when
    the call was answered with a choice.  When the cell returns, all four
    calls gave a text.  When it raises, every call before the last gave a
    text, the last did not, the exception is the last call's failure (or
    [IndexError] for a response without a choice), and the header of the
    value that failed is the last thing printed. *)
Theorem cell_4_transcript (s : state world) :
  let values := [Int 16; Int 32; Int 60; Int 100] in
  let run := cell_4 remote CHAT_COMPLETIONS_MODEL s in
  exists outcomes,
    (length outcomes <= 4)%nat
    /\ log run.2
       = log s
         ++ interactions
              (zip (kwargs_max_tokens CHAT_COMPLETIONS_MODEL <$> values)
                 outcomes)
    /\ stdout run.2
       = stdout s
         ++ concat (zip_with (round_lines "Max Tokens: ") values outcomes)
    /\ match run.1 with
       | inr _ => length outcomes = 4%nat /\ Forall yields_text outcomes
       | inl err =>
           exists earlier last,
             outcomes = earlier ++ [last]
             /\ Forall yields_text earlier
             /\ ~ yields_text last
             /\ (forall y,
                   round_lines "Max Tokens: " y last
                   = [[PFString [inl "Max Tokens: "; inr y; inl newline]]])
             /\ err = match last with
                      | inl e => ServiceError e
                      | inr _ => IndexError
                      end
       end.
Proof.
  intros values run. subst values run. unfold cell_4. cbn zeta.
  exact (rounds_transcript "Max Tokens: "
           (kwargs_max_tokens CHAT_COMPLETIONS_MODEL) _
           [Int 16; Int 32; Int 60; Int 100] s round_max_tokens_eq).
Qed.

(** X9. Cell 13 goes through the presence penalties 0, 0.5, 1.0, 1.5, 2.0
    in order and stops at the first call that gives no text.  For each value
    it reached it has sent one request with that [presence_penalty] and
    printed the header naming the value; the first choice's content and the
    ruler follow exactly when the call was answered with a choice.  When the
    cell returns, all five calls gave a text.  When it raises, every call
    before the last gave a text, the last did not, and the exception is the
    last call's failure (or [IndexError] for a response without a
    choice). *)
Theorem cell_13_transcript (s : state world) :
  let values := [Int 0; Float (1 # 2); Float 1; Float (3 # 2); Float 2] in
  let run := cell_13 remote CHAT_COMPLETIONS_MODEL s in
  exists outcomes,
    (length outcomes <= 5)%nat
    /\ log run.2
       = log s
         ++ interactions
              (zip (kwargs_presence_penalty CHAT_COMPLETIONS_MODEL <$> values)
                 outcomes)
    /\ stdout run.2
       = stdout s
         ++ concat
              (zip_with (round_lines "Presence Penalty: ") values outcomes)
    /\ match run.1 with
       | inr _ => length outcomes = 5%nat /\ Forall yields_text outcomes
       | inl err =>
           exists earlier last,
             outcomes = earlier ++ [last]
             /\ Forall yields_text earlier
             /\ ~ yields_text last
             /\ (forall y,
                   round_lines "Presence Penalty: " y last
                   = [[PFString
                         [inl "Presence Penalty: "; inr y; inl newline]]])
             /\ err = match last with
                      | inl e => ServiceError e
                      | inr _ => IndexError
                      end
       end.
Proof.
  intros values run. subst values run. unfold cell_13. cbn zeta.
  exact (rounds_transcript "Presence Penalty: "
           (kwargs_presence_penalty CHAT_COMPLETIONS_MODEL) _
           [Int 0; Float (1 # 2); Float 1; Float (3 # 2); Float 2] s
           round_presence_penalty_eq).
Qed.

(** ** Which fields, which requests, in which order *)

Lemma builds_dom (op : operation) (kw : gmap string value) :
  builds CHAT_COMPLETIONS_MODEL op kw -> dom kw = fields_of op.
Proof.
  intros Hkw.
  destruct op as [| ? ? ? [] | | | | | | |]; cbn in Hkw;
    repeat match goal with H : ex _ |- _ => destruct H end; subst kw;
    unfold kwargs_max_tokens, kwargs_call_openai, kwargs_with_seed,
      kwargs_without_seed, kwargs_presence_penalty, kwargs_n, fields_of;
    rewrite !dom_insert_L, dom_singleton_L; set_solver.
Qed.

(** X10. The requests of an operation have exactly the keys of its kind:
    [model], [messages] and [max_tokens] always; beyond them only
    [temperature] (and [seed] with [use_seed=True]) from [call_openai], only
    [presence_penalty] from the presence-penalty wrapper and cell 13, only
    [n] from the [n] cell, and nothing from the max-tokens wrapper and
    cell 4. *)
Theorem requests_have_exact_fields (op : operation) (s : state world) :
  exists calls,
    log (run remote CHAT_COMPLETIONS_MODEL op s).2
      = log s ++ interactions calls
    /\ Forall (fun call => dom call.1 = fields_of op) calls
    /\ ((run remote CHAT_COMPLETIONS_MODEL op s).1 = inr tt ->
        length calls = requests_planned op).
Proof.
  destruct (emits_run remote CHAT_COMPLETIONS_MODEL op s)
    as (calls & Hlog & Hkw & _ & Hok).
  exists calls. repeat split; [done | | by apply Hok].
  eapply Forall_impl; [exact Hkw |]. intros call. apply builds_dom.
Qed.

Lemma sends_nothing {A : Type} (c : M world A) :
  (forall s, log (c s).2 = log s) -> sends [] c.
Proof.
  intros Hc s. exists []. cbn. rewrite app_nil_r. by rewrite Hc.
Qed.

Lemma sends_create (kw : gmap string value) : sends [kw] (create remote kw).
Proof.
  intros s. exists [(kw, (remote kw (remote_state s)).1)].
  rewrite create_eq. by cbn.
Qed.

Lemma sends_bind {A B : Type} (p1 p2 : list (gmap string value))
    (c : M world A) (k : A -> M world B) :
  sends p1 c -> (forall a, sends p2 (k a)) -> sends (p1 ++ p2) (bind c k).
Proof.
  intros Hc Hk s. destruct (Hc s) as (calls & Hlog & Hpre & Hall).
  unfold bind. destruct (c s) as [[err | a] s'] eqn:Hcs; cbn in *.
  - exists calls. repeat split; [done | by apply prefix_app_r | done].
  - destruct (Hk a s') as (calls' & Hlog' & Hpre' & Hall').
    exists (calls ++ calls').
    rewrite Hlog', Hlog, interactions_app, fmap_app, (Hall a eq_refl).
    repeat split; [by rewrite app_assoc | by apply prefix_app |].
    intros b Hb. by rewrite (Hall' b Hb).
Qed.

Lemma sends_for_each {A : Type} (pl : A -> list (gmap string value))
    (xs : list A) (body : A -> M world unit) :
  (forall x, sends (pl x) (body x)) ->
  sends (concat (pl <$> xs)) (for_each xs body).
Proof.
  intros Hbody. induction xs as [| x xs IH]; cbn [for_each fmap list_fmap].
  - by apply sends_nothing.
  - cbn [concat]. apply sends_bind; [apply Hbody | intros _; exact IH].
Qed.

Lemma sends_first_choice {A : Type} (kw : gmap string value)
    (k : Choice -> M world A) :
  (forall c, sends [] (k c)) ->
  sends [kw] (response <- create remote kw ;;
              c <- getitem (choices response) 0 ;;
              k c).
Proof.
  intros Hk. change [kw] with ([kw] ++ ([] ++ [])).
  apply sends_bind; [apply sends_create |]. intros response.
  apply sends_bind; [| exact Hk].
  apply sends_nothing. intros s. unfold getitem.
  by destruct (choices response !! 0%nat).
Qed.

Lemma concat_singletons {A B : Type} (f : A -> B) (xs : list A) :
  concat ((fun x => [f x]) <$> xs) = f <$> xs.
Proof. induction xs as [| x xs IH]; [done |]. cbn. by rewrite IH. Qed.

Lemma sends_call_openai num_times prompt temperature use_seed :
  sends
    (replicate (Z.to_nat num_times)
       (kwargs_call_openai CHAT_COMPLETIONS_MODEL prompt temperature use_seed))
    (call_openai remote CHAT_COMPLETIONS_MODEL num_times prompt temperature
       use_seed).
Proof.
  rewrite call_openai_eq.
  set (kw := kwargs_call_openai CHAT_COMPLETIONS_MODEL prompt temperature
               use_seed).
  replace (replicate (Z.to_nat num_times) kw)
    with (concat ((fun _ : Z => [kw]) <$> range num_times)).
  - apply sends_for_each. intros _. apply sends_first_choice.
    intros c. by apply sends_nothing.
  - rewrite (concat_singletons (fun _ => kw)), <- (length_range num_times).
    by apply const_fmap.
Qed.

Lemma sends_run (op : operation) :
  sends (plan CHAT_COMPLETIONS_MODEL op)
    (run remote CHAT_COMPLETIONS_MODEL op).
Proof.
  assert (forall x,
             sends [kwargs_max_tokens CHAT_COMPLETIONS_MODEL x]
               (call_openai_with_max_tokens remote CHAT_COMPLETIONS_MODEL x))
    as Hmax.
  { intros x. apply sends_first_choice. intros c. by apply sends_nothing. }
  assert (forall x,
             sends [kwargs_presence_penalty CHAT_COMPLETIONS_MODEL x]
               (call_openai_with_presence_penalty remote
                  CHAT_COMPLETIONS_MODEL x))
    as Hpresence.
  { intros x. apply sends_first_choice. intros c. by apply sends_nothing. }
  assert (forall n,
             sends [kwargs_n CHAT_COMPLETIONS_MODEL n]
               (n_cell remote CHAT_COMPLETIONS_MODEL n)) as Hn.
  { intros n. change [kwargs_n CHAT_COMPLETIONS_MODEL n]
      with ([kwargs_n CHAT_COMPLETIONS_MODEL n] ++ []).
    apply sends_bind; [apply sends_create |]. intros response.
    apply sends_nothing. intros s. by rewrite print_choices_eq. }
  destruct op; cbn [run plan].
  - change [kwargs_max_tokens CHAT_COMPLETIONS_MODEL max_tokens]
      with ([kwargs_max_tokens CHAT_COMPLETIONS_MODEL max_tokens] ++ []).
    apply sends_bind; [apply Hmax | intros; by apply sends_nothing].
  - apply sends_call_openai.
  - change [kwargs_presence_penalty CHAT_COMPLETIONS_MODEL presence_penalty]
      with ([kwargs_presence_penalty CHAT_COMPLETIONS_MODEL presence_penalty]
            ++ []).
    apply sends_bind; [apply Hpresence | intros; by apply sends_nothing].
  - apply Hn.
  - rewrite <- concat_singletons. apply sends_for_each. intros x.
    change [kwargs_max_tokens CHAT_COMPLETIONS_MODEL x]
      with ([] ++ ([kwargs_max_tokens CHAT_COMPLETIONS_MODEL x] ++ ([] ++ []))).
    apply sends_bind; [by apply sends_nothing | intros _].
    apply sends_bind; [apply Hmax | intros text].
    apply sends_bind; [by apply sends_nothing | intros _].
    by apply sends_nothing.
  - apply (sends_call_openai 10).
  - apply (sends_call_openai 10).
  - apply Hn.
  - rewrite <- concat_singletons. apply sends_for_each. intros x.
    change [kwargs_presence_penalty CHAT_COMPLETIONS_MODEL x]
      with ([] ++ ([kwargs_presence_penalty CHAT_COMPLETIONS_MODEL x]
                   ++ ([] ++ []))).
    apply sends_bind; [by apply sends_nothing | intros _].
    apply sends_bind; [apply Hpresence | intros text].
    apply sends_bind; [by apply sends_nothing | intros _].
    by apply sends_nothing.
Qed.

(** X11. The requests an operation sends are, in order, the first ones of
    its plan, and the whole plan when it returns: one request for a wrapper
    or the [n] cell, [num_times] copies of one request for [call_openai],
    the requests for 16, 32, 60, 100 for cell 4 and for the penalties 0,
    0.5, 1.0, 1.5, 2.0 for cell 13. *)
Theorem operations_send_their_plan (op : operation) (s : state world) :
  exists calls,
    log (run remote CHAT_COMPLETIONS_MODEL op s).2
      = log s ++ interactions calls
    /\ calls.*1 `prefix_of` plan CHAT_COMPLETIONS_MODEL op
    /\ ((run remote CHAT_COMPLETIONS_MODEL op s).1 = inr tt ->
        calls.*1 = plan CHAT_COMPLETIONS_MODEL op).
Proof.
  destruct (sends_run op s) as (calls & Hlog & Hpre & Hall).
  exists calls. repeat split; [done | done | by apply Hall].
Qed.

(** X12. Run top to bottom, the code cells send the requests of cell 4,
    then of cells 7, 8, 10 and 13, in that order, and stop at the first cell
    that raises: what was sent is a prefix of the thirty planned requests,
    all thirty when the run returns, and at no point is more than one
    request waiting for its answer. *)
Theorem notebook_sends_its_plan (s : state world) :
  exists calls,
    log (notebook remote CHAT_COMPLETIONS_MODEL s).2
      = log s ++ interactions calls
    /\ calls.*1 `prefix_of` notebook_plan CHAT_COMPLETIONS_MODEL
    /\ length (notebook_plan CHAT_COMPLETIONS_MODEL) = 30%nat
    /\ ((notebook remote CHAT_COMPLETIONS_MODEL s).1 = inr tt ->
        calls.*1 = notebook_plan CHAT_COMPLETIONS_MODEL)
    /\ (forall pre,
          pre `prefix_of` interactions calls -> 0 <= outstanding pre <= 1).
Proof.
  assert (sends (notebook_plan CHAT_COMPLETIONS_MODEL)
            (notebook remote CHAT_COMPLETIONS_MODEL)) as Hsends.
  { unfold notebook, notebook_plan.
    apply sends_bind; [apply (sends_run Cell4) | intros _].
    apply sends_bind; [apply (sends_run Cell7) | intros _].
    apply sends_bind; [apply (sends_run Cell8) | intros _].
    apply sends_bind; [apply (sends_run Cell10) | intros _].
    apply (sends_run Cell13). }
  destruct (Hsends s) as (calls & Hlog & Hpre & Hall).
  exists calls. repeat split; [done | done | by apply Hall | |];
    eapply outstanding_prefix; eassumption.
Qed.

End Coverage.

(** ** The loop theorems at work on the demo endpoints *)

Lemma call_openai_nonpositive_witness :
  -3 <= 0
  /\ call_openai Demo.steady (Some "gpt-4o") (-3) "The best pet is a "
       default_temperature false Demo.start
     = (inr tt, Demo.start).
Proof.
  split; [lia |].
  apply (call_openai_nonpositive Demo.steady (Some "gpt-4o") (-3)
           "The best pet is a " default_temperature false Demo.start).
  lia.
Defined.

Lemma call_openai_split_witness :
  0 <= 1
  /\ 0 <= 2
  /\ call_openai Demo.steady (Some "gpt-4o") (1 + 2) "The best pet is a "
       default_temperature false Demo.start
     = bind
         (call_openai Demo.steady (Some "gpt-4o") 1 "The best pet is a "
            default_temperature false)
         (fun _ =>
            call_openai Demo.steady (Some "gpt-4o") 2 "The best pet is a "
              default_temperature false) Demo.start.
Proof.
  split; [lia |]. split; [lia |].
  apply (call_openai_split Demo.steady (Some "gpt-4o") 1 2
           "The best pet is a " default_temperature false Demo.start); lia.
Defined.

Lemma call_openai_failure_is_final_witness :
  3 <= 10
  /\ (call_openai Demo.metered (Some "gpt-4o") 3 "The best pet is a "
        default_temperature false Demo.start).1
     = inl (ServiceError RemoteServiceError)
  /\ call_openai Demo.metered (Some "gpt-4o") 10 "The best pet is a "
       default_temperature false Demo.start
     = call_openai Demo.metered (Some "gpt-4o") 3 "The best pet is a "
         default_temperature false Demo.start.
Proof.
  split; [lia |]. split; [reflexivity |].
  apply (call_openai_failure_is_final Demo.metered (Some "gpt-4o") 3 10
           "The best pet is a " default_temperature false Demo.start
           (ServiceError RemoteServiceError)); [lia | reflexivity].
Defined.

(** * What is the notebook's and what is the endpoint's *)

Section Endpoint.

Context {world : Type}.
Variable remote :
  gmap string value -> world -> (service_error + ChatCompletion) * world.
Variable CHAT_COMPLETIONS_MODEL : option string.

Notation "x <- c ;; k" := (bind c (fun x => k))
  (at level 100, c at next level, right associativity).

(** ** The [n] cell *)


(** ** Failures *)












(** ** Seeded runs *)



(** ** The presence penalty *)


End Endpoint.

(** ** On the demo endpoints *)





